(** * MultiplyMerge: the element-wise multiplicative merge layer of mlpack

    A shallow embedding of [methods/ann/layer/multiply_merge_impl.hpp].

    The layer keeps a [std::vector] of [boost::variant] values, each one a raw
    pointer to a layer object (a "branch").  Pointers are modelled as handles
    into a heap of branch objects, so that two entries of the vector, or two
    merge layers, may designate the same branch.  Matrices ([arma::Mat]) and
    the branches' own member functions are external to the file and are taken
    as parameters, through the classes [Arma] and [LayerTypes]. *)

From stdpp Require Import base list functions.

Set Default Proof Using "Type".

(** ** Outcomes

    C++ leaves [front()] and [operator[]] undefined on an index that is not in
    the vector, and cereal throws on an archive that does not hold what is
    asked of it.  The embedding is total: such a step yields [Raise]. *)

Inductive error : Type :=
  | InvalidConfiguration   (* access to an element that the vector lacks *)
  | MalformedArchive.      (* the input archive holds another item, or none *)

Inductive outcome (A : Type) : Type :=
  | Done (a : A)
  | Raise (e : error).

Arguments Done {A} a.
Arguments Raise {A} e.

Definition bind {A B : Type} (m : outcome A) (k : A -> outcome B) : outcome B :=
  match m with
  | Done a => k a
  | Raise e => Raise e
  end.

Definition outcome_map {A B : Type} (f : A -> B) (m : outcome A) : outcome B :=
  bind m (fun a => Done (f a)).

Declare Scope outcome_scope.
Delimit Scope outcome_scope with outcome.
Bind Scope outcome_scope with outcome.

Notation "x <- m ;; k" := (bind m (fun x => k))
  (at level 20, m at level 99, k at level 200) : outcome_scope.
Notation "' p <- m ;; k" := (bind m (fun x => match x with p => k end))
  (at level 20, p pattern, m at level 99, k at level 200) : outcome_scope.

Open Scope outcome_scope.

(** ** Vectors and counted loops *)

Abbreviation handle := nat.

(** [v.front()] *)
Definition front {A : Type} (v : list A) : outcome A :=
  match v with
  | [] => Raise InvalidConfiguration
  | a :: _ => Done a
  end.

(** [v[i]] *)
Definition subscript {A : Type} (v : list A) (i : nat) : outcome A :=
  match v !! i with
  | Some a => Done a
  | None => Raise InvalidConfiguration
  end.

(** [for (size_t i = from; i < from + count; ++i) body], with the loop state
    threaded through the body. *)
Fixpoint for_count {State : Type} (count from : nat)
    (body : nat -> State -> outcome State) (s : State) : outcome State :=
  match count with
  | 0 => Done s
  | S count' => s' <- body from s ;; for_count count' (S from) body s'
  end.

(** [for (size_t i = from; i < to; ++i) body] *)
Definition for_loop {State : Type} (from to : nat)
    (body : nat -> State -> outcome State) (s : State) : outcome State :=
  for_count (to - from) from body s.

(** [std::for_each(v.begin(), v.end(), f)] *)
Fixpoint for_each {A State : Type} (v : list A) (f : A -> State -> State)
    (s : State) : State :=
  match v with
  | [] => s
  | a :: v' => for_each v' f (f a s)
  end.

(** ** Matrices and branches *)

(** The Armadillo operations the file uses. *)
Class Arma (Tensor : Type) : Type := {
  (** [a %= b], the element-wise product *)
  schur : Tensor -> Tensor -> Tensor;
  (** [a += b], the element-wise sum *)
  mat_add : Tensor -> Tensor -> Tensor;
  (** a default-constructed matrix *)
  empty_mat : Tensor
}.

(** Modelled from the spec: the member functions of a branch, which the
    visitors of [../visitor/forward_visitor.hpp], [backward_visitor.hpp] and
    [gradient_visitor.hpp] and [outputParameterVisitor], [deltaVisitor]
    dispatch to.  Section 6 gives the capability set: Forward(input) writes
    the branch's own output, Backward(output, upstreamGradient) writes its own
    delta, Gradient(input, error) accumulates its own weight gradients, and
    OutputParameter() and Delta() read the two stored matrices.  A member
    function that writes into the branch is a function to the branch's next
    state. *)
Class LayerTypes (Tensor Branch : Type) : Type := {
  branch_Forward : Tensor -> Branch -> Branch;
  branch_Backward : Tensor -> Tensor -> Branch -> Branch;
  branch_Gradient : Tensor -> Tensor -> Branch -> Branch;
  OutputParameter : Branch -> Tensor;
  Delta : Branch -> Tensor
}.

(** Modelled from the spec: what the cereal wrappers of
    [CEREAL_VECTOR_VARIANT_POINTER] write and read for one branch.  Section
    4.2 and section 6: each element of the sequence is a kind tag with a
    kind-specific payload, and loading builds a branch from it. *)
Class Persistent (Branch Payload : Type) : Type := {
  branch_save : Branch -> Payload;
  branch_load : Payload -> Branch
}.

(** ** The heap of branch objects *)

(** Every handle designates a branch object.  [delete] is recorded in [freed]
    and leaves the object in place, so that the record tells how often each
    branch was destroyed. *)
Record Heap (Branch : Type) : Type := mkHeap {
  (** the object a handle points to *)
  layers : handle -> Branch;
  (** the handles [delete] was applied to, oldest first *)
  freed : list handle;
  (** the next handle [new] gives out *)
  brk : handle
}.

Arguments mkHeap {Branch} layers freed brk.
Arguments layers {Branch} h.
Arguments freed {Branch} h.
Arguments brk {Branch} h.

(** ** Archives

    An archive is a sequence of items: an output archive is appended to, an
    input archive is read from the front. *)

Inductive item (Payload : Type) : Type :=
  | Size (n : nat)
  | Variant (p : Payload)
  | Flag (b : bool).

Arguments Size {Payload} n.
Arguments Variant {Payload} p.
Arguments Flag {Payload} b.

Inductive Archive (Payload : Type) : Type :=
  | OutputArchive (written : list (item Payload))
  | InputArchive (pending : list (item Payload)).

Arguments OutputArchive {Payload} written.
Arguments InputArchive {Payload} pending.

(** ** The merge layer *)

Abbreviation addr := nat.

(** The object of a merge layer: the five members the file initialises. *)
Record MultiplyMerge (Tensor : Type) : Type := mkMultiplyMerge {
  model : bool;
  run : bool;
  ownsLayer : bool;
  network : list handle;
  weights : Tensor
}.

Arguments mkMultiplyMerge {Tensor} model run ownsLayer network weights.
Arguments model {Tensor} m.
Arguments run {Tensor} m.
Arguments ownsLayer {Tensor} m.
Arguments network {Tensor} m.
Arguments weights {Tensor} m.

Section MultiplyMerge.

Context {Tensor Branch : Type} `{!Arma Tensor} `{!LayerTypes Tensor Branch}.

Local Abbreviation Heap := (Heap Branch).
Local Abbreviation MultiplyMerge := (MultiplyMerge Tensor).

(** *** Visitors *)

Definition with_layers (f : (handle -> Branch) -> handle -> Branch) (s : Heap) : Heap :=
  mkHeap (f (layers s)) (freed s) (brk s).

(** Modelled from the spec: [boost::apply_visitor(outputParameterVisitor, h)],
    a visitor the file uses and does not define; section 6: OutputParameter()
    gives the output the branch holds. *)
Definition outputParameterVisitor (h : handle) (s : Heap) : Tensor :=
  OutputParameter (layers s h).

(** Modelled from the spec: [boost::apply_visitor(deltaVisitor, h)]; section
    6: Delta() gives the delta the branch holds. *)
Definition deltaVisitor (h : handle) (s : Heap) : Tensor :=
  Delta (layers s h).

(** Modelled from the spec: [boost::apply_visitor(ForwardVisitor(input,
    output), h)] of the missing [../visitor/forward_visitor.hpp]; section 4.1:
    the branch's Forward is invoked on [input] and writes into the branch's
    own output storage, which is what the code passes as [output] (the
    reference [outputParameterVisitor] returns for [h] itself). *)
Definition ForwardVisitor (input : Tensor) (h : handle) (s : Heap) : Heap :=
  with_layers (alter (branch_Forward input) h) s.

(** Modelled from the spec: [boost::apply_visitor(BackwardVisitor(input,
    error, delta), h)] of the missing [../visitor/backward_visitor.hpp];
    section 4.1: the branch's Backward is invoked on the two matrices and
    writes into the branch's own delta, which is what the code passes as
    [delta] (the reference [deltaVisitor] returns for [h] itself). *)
Definition BackwardVisitor (input error : Tensor) (h : handle) (s : Heap) : Heap :=
  with_layers (alter (branch_Backward input error) h) s.

(** Modelled from the spec: [boost::apply_visitor(GradientVisitor(input,
    error), h)] of the missing [../visitor/gradient_visitor.hpp]; section 4.1:
    the branch's Gradient is invoked on [input] and [error] and accumulates
    the branch's own weight gradients. *)
Definition GradientVisitor (input error : Tensor) (h : handle) (s : Heap) : Heap :=
  with_layers (alter (branch_Gradient input error) h) s.

(** Modelled from the spec: [boost::apply_visitor(deleteVisitor, h)]; section
    9: the delete visitor destroys the branch the handle designates. *)
Definition deleteVisitor (h : handle) (s : Heap) : Heap :=
  mkHeap (layers s) (freed s ++ [h]) (brk s).

(** *** Construction *)

(** [MultiplyMerge(const bool model, const bool run)] *)
Definition MultiplyMerge_new (model run : bool) : MultiplyMerge :=
  mkMultiplyMerge model run (negb model) [] empty_mat.

(** [~MultiplyMerge()] *)
Definition destructor (this : MultiplyMerge) (s : Heap) : Heap :=
  if ownsLayer this then for_each (network this) deleteVisitor s else s.

(** *** Forward, Backward, Gradient *)

(** [Forward(input, output)]: the heap after the call and the value left in
    [output]. *)
Definition Forward (this : MultiplyMerge) (input : Tensor) (s : Heap)
    : outcome (Heap * Tensor) :=
  s <- (if run this
        then for_loop 0 (length (network this))
               (fun i s => h <- subscript (network this) i ;;
                           Done (ForwardVisitor input h s)) s
        else Done s) ;;
  h <- front (network this) ;;
  let output := outputParameterVisitor h s in
  output <- for_loop 1 (length (network this))
              (fun i output => h <- subscript (network this) i ;;
                               Done (schur output (outputParameterVisitor h s)))
              output ;;
  Done (s, output).

(** [Backward(input, gy, g)]: the heap after the call and the value left in
    [g].  The first parameter has no name in the code. *)
Definition Backward (this : MultiplyMerge) (_ gy : Tensor) (s : Heap)
    : outcome (Heap * Tensor) :=
  if run this then
    s <- for_loop 0 (length (network this))
           (fun i s => h <- subscript (network this) i ;;
                       Done (BackwardVisitor (outputParameterVisitor h s) gy h s)) s ;;
    h <- subscript (network this) 0 ;;
    let g := deltaVisitor h s in
    g <- for_loop 1 (length (network this))
           (fun i g => h <- subscript (network this) i ;;
                       Done (mat_add g (deltaVisitor h s)))
           g ;;
    Done (s, g)
  else Done (s, gy).

(** [Gradient(input, error, gradient)]: the heap after the call and the value
    left in [gradient].  The third parameter has no name in the code. *)
Definition Gradient (this : MultiplyMerge) (input error gradient : Tensor) (s : Heap)
    : outcome (Heap * Tensor) :=
  if run this then
    s <- for_loop 0 (length (network this))
           (fun i s => h <- subscript (network this) i ;;
                       Done (GradientVisitor input error h s)) s ;;
    Done (s, gradient)
  else Done (s, gradient).

(** *** Copy and move

    [this != &layer] compares addresses, so the merge-layer objects live in a
    memory of their own, and an assignment is a sequence of member writes. *)

Definition set_model (this : addr) (v : bool) (m : addr -> MultiplyMerge)
    : addr -> MultiplyMerge :=
  alter (fun o => mkMultiplyMerge v (run o) (ownsLayer o) (network o) (weights o)) this m.

Definition set_run (this : addr) (v : bool) (m : addr -> MultiplyMerge)
    : addr -> MultiplyMerge :=
  alter (fun o => mkMultiplyMerge (model o) v (ownsLayer o) (network o) (weights o)) this m.

Definition set_ownsLayer (this : addr) (v : bool) (m : addr -> MultiplyMerge)
    : addr -> MultiplyMerge :=
  alter (fun o => mkMultiplyMerge (model o) (run o) v (network o) (weights o)) this m.

Definition set_network (this : addr) (v : list handle) (m : addr -> MultiplyMerge)
    : addr -> MultiplyMerge :=
  alter (fun o => mkMultiplyMerge (model o) (run o) (ownsLayer o) v (weights o)) this m.

Definition set_weights (this : addr) (v : Tensor) (m : addr -> MultiplyMerge)
    : addr -> MultiplyMerge :=
  alter (fun o => mkMultiplyMerge (model o) (run o) (ownsLayer o) (network o) v) this m.

(** [MultiplyMerge(const MultiplyMerge& layer)], building the object at [this]. *)
Definition MultiplyMerge_copy (this layer : addr) (m : addr -> MultiplyMerge)
    : addr -> MultiplyMerge :=
  <[this := mkMultiplyMerge (model (m layer)) (run (m layer)) (ownsLayer (m layer))
              (network (m layer)) (weights (m layer))]> m.

(** [MultiplyMerge(MultiplyMerge&& layer)], building the object at [this].
    Moving a [bool] copies it; a moved-from [std::vector] and a moved-from
    [arma::Mat] are left empty. *)
Definition MultiplyMerge_move (this layer : addr) (m : addr -> MultiplyMerge)
    : addr -> MultiplyMerge :=
  let o := m layer in
  let m := set_network layer [] m in
  let m := set_weights layer empty_mat m in
  <[this := mkMultiplyMerge (model o) (run o) (ownsLayer o) (network o) (weights o)]> m.

(** [operator=(const MultiplyMerge& layer)] *)
Definition operator_assign (this layer : addr) (m : addr -> MultiplyMerge)
    : addr -> MultiplyMerge :=
  if decide (this <> layer) then
    let m := set_model this (model (m layer)) m in
    let m := set_run this (run (m layer)) m in
    let m := set_ownsLayer this (ownsLayer (m layer)) m in
    let m := set_network this (network (m layer)) m in
    let m := set_weights this (weights (m layer)) m in
    m
  else m.

(** [operator=(MultiplyMerge&& layer)]; the moved-from vector and matrix of
    [layer] are left empty, as in the move constructor. *)
Definition operator_assign_move (this layer : addr) (m : addr -> MultiplyMerge)
    : addr -> MultiplyMerge :=
  if decide (this <> layer) then
    let m := set_model this (model (m layer)) m in
    let m := set_run this (run (m layer)) m in
    let m := set_ownsLayer this (ownsLayer (m layer)) m in
    let m := set_network layer [] (set_network this (network (m layer)) m) in
    let m := set_weights layer empty_mat (set_weights this (weights (m layer)) m) in
    m
  else m.

(** *** Serialization *)

Context {Payload : Type} `{!Persistent Branch Payload}.

Local Abbreviation item := (item Payload).
Local Abbreviation Archive := (Archive Payload).

(** [cereal::is_loading<Archive>()] *)
Definition is_loading (ar : Archive) : bool :=
  match ar with
  | InputArchive _ => true
  | OutputArchive _ => false
  end.

(** [ar(CEREAL_NVP(b))] for a [bool] member: an output archive takes the
    value, an input archive gives the next one. *)
Definition CEREAL_NVP (b : bool) (ar : Archive) : outcome (bool * Archive) :=
  match ar with
  | OutputArchive written => Done (b, OutputArchive (written ++ [Flag b]))
  | InputArchive (Flag b' :: pending) => Done (b', InputArchive pending)
  | InputArchive _ => Raise MalformedArchive
  end.

(** The element count that opens a sequence. *)
Definition ar_size (n : nat) (ar : Archive) : outcome (nat * Archive) :=
  match ar with
  | OutputArchive written => Done (n, OutputArchive (written ++ [Size n]))
  | InputArchive (Size n' :: pending) => Done (n', InputArchive pending)
  | InputArchive _ => Raise MalformedArchive
  end.

(** [new] of a branch object. *)
Definition new (b : Branch) (s : Heap) : handle * Heap :=
  (brk s, mkHeap (<[brk s := b]> (layers s)) (freed s) (S (brk s))).

(** Modelled from the spec: saving one element of the sequence, which is
    written with its kind tag and kind-specific payload (section 4.2). *)
Fixpoint save_branches (v : list handle) (s : Heap) : list item :=
  match v with
  | [] => []
  | h :: v' => Variant (branch_save (layers s h)) :: save_branches v' s
  end.

(** Modelled from the spec: loading [count] elements of the sequence; each
    one becomes a branch of its own, and the collection is populated in the
    order of the sequence (section 4.2). *)
Fixpoint load_branches (count : nat) (v : list handle) (pending : list item) (s : Heap)
    : outcome (list handle * list item * Heap) :=
  match count with
  | 0 => Done (v, pending, s)
  | S count' =>
      match pending with
      | Variant p :: pending' =>
          let '(h, s') := new (branch_load p) s in
          load_branches count' (v ++ [h]) pending' s'
      | _ => Raise MalformedArchive
      end
  end.

(** Modelled from the spec: [ar(CEREAL_VECTOR_VARIANT_POINTER(network))], the
    macro of mlpack's cereal wrappers that is missing from the file.  Section
    4.2 and section 6: the collection is an ordered sequence of tagged
    branches; saving writes every branch in collection order, loading
    populates the collection from the sequence. *)
Definition CEREAL_VECTOR_VARIANT_POINTER (v : list handle) (ar : Archive) (s : Heap)
    : outcome (list handle * Archive * Heap) :=
  match ar with
  | OutputArchive _ =>
      '(_, ar) <- ar_size (length v) ar ;;
      match ar with
      | OutputArchive written => Done (v, OutputArchive (written ++ save_branches v s), s)
      | InputArchive _ => Raise MalformedArchive
      end
  | InputArchive _ =>
      '(count, ar) <- ar_size 0 ar ;;
      match ar with
      | InputArchive pending =>
          '(v, pending, s) <- load_branches count v pending s ;;
          Done (v, InputArchive pending, s)
      | OutputArchive _ => Raise MalformedArchive
      end
  end.

(** [serialize(ar, version)]: the object, the archive and the heap after the
    call. *)
Definition serialize (this : MultiplyMerge) (ar : Archive) (s : Heap)
    : outcome (MultiplyMerge * Archive * Heap) :=
  let this :=
    if is_loading ar
    then mkMultiplyMerge (model this) (run this) (ownsLayer this) [] (weights this)
    else this in
  '(network', ar, s) <- CEREAL_VECTOR_VARIANT_POINTER (network this) ar s ;;
  '(model', ar) <- CEREAL_NVP (model this) ar ;;
  '(run', ar) <- CEREAL_NVP (run this) ar ;;
  '(ownsLayer', ar) <- CEREAL_NVP (ownsLayer this) ar ;;
  Done (mkMultiplyMerge model' run' ownsLayer' network' (weights this), ar, s).

End MultiplyMerge.

(** ** What the statements count and compare *)

(** How many times [delete] was applied to the handle [h]. *)
Definition destroyed {Branch : Type} (h : handle) (s : Heap Branch) : nat :=
  length (filter (eq h) (freed s)).

(** The left fold of [op] over a list, seeded by its first element. *)
Definition fold_seeded {A : Type} (op : A -> A -> A) (l : list A) : outcome A :=
  match l with
  | [] => Raise InvalidConfiguration
  | a :: l' => Done (fold_left op l' a)
  end.

(** Forward drives no branch twice, or a branch's second Forward on the same
    input leaves the branch as the first left it (its output is a function of
    the input and of what Forward does not change). *)
Definition forwards_once {Tensor Branch : Type} `{!LayerTypes Tensor Branch}
    (this : MultiplyMerge Tensor) : Prop :=
  run this = false \/
  NoDup (network this) \/
  forall (input : Tensor) (b : Branch),
    branch_Forward input (branch_Forward input b) = branch_Forward input b.

(** How many entries of the collection [v] hold the handle [h]. *)
Definition entries (h : handle) (v : list handle) : nat :=
  length (filter (eq h) v).

(** The heap after [new] of every branch of [bs], first to last. *)
Definition new_all {Branch : Type} (bs : list Branch) (s : Heap Branch) : Heap Branch :=
  fold_left (fun s b => snd (new b s)) bs s.

(** ** A concrete instance: integer vectors and a scaling branch

    Matrices are lists of integers, combined position by position.  A branch
    multiplies its input by [factor] and adds the number of Forward calls it
    has seen, as a recurrent layer that keeps state between calls would. *)

Module Mock.

Definition Tensor : Type := list Z.

#[export] Instance arma : Arma Tensor := {|
  schur := zip_with Z.mul;
  mat_add := zip_with Z.add;
  empty_mat := []
|}.

Record Scale : Type := mkScale {
  factor : Z;
  steps : Z;
  outputParameter : Tensor;
  delta : Tensor;
  gradient : Tensor
}.

#[export] Instance layer_types : LayerTypes Tensor Scale := {|
  branch_Forward input b :=
    mkScale (factor b) (steps b + 1)
      (map (fun v => factor b * v + steps b)%Z input) (delta b) (gradient b);
  branch_Backward _ gy b :=
    mkScale (factor b) (steps b) (outputParameter b)
      (map (Z.mul (factor b)) gy) (gradient b);
  branch_Gradient input error b :=
    mkScale (factor b) (steps b) (outputParameter b) (delta b)
      (zip_with Z.mul input error);
  OutputParameter := outputParameter;
  Delta := delta
|}.

(** What an archive keeps of a [Scale] branch: its five members. *)
Definition Saved : Type := Z * Z * Tensor * Tensor * Tensor.

#[export] Instance persistent : Persistent Scale Saved := {|
  branch_save b := (factor b, steps b, outputParameter b, delta b, gradient b);
  branch_load p := let '(f, n, o, d, g) := p in mkScale f n o d g
|}.

(** Two branches with the outputs [1,2,3] and [4,5,6] and the factors 1 and 2,
    at the handles 0 and 1; every other handle holds a blank branch. *)
Definition blank : Scale := mkScale 0 0 [] [] [].
Definition branchA : Scale := mkScale 1 0 [1; 2; 3]%Z [] [].
Definition branchB : Scale := mkScale 2 0 [4; 5; 6]%Z [] [].

Definition heap0 : Heap Scale :=
  mkHeap (<[0 := branchA]> (<[1 := branchB]> (fun _ => blank))) [] 2.

Definition merge (run owns : bool) : MultiplyMerge Tensor :=
  mkMultiplyMerge (negb owns) run owns [0; 1] [9%Z].

(** Two merge-layer objects, at the addresses 0 and 1. *)
Definition memory0 : addr -> MultiplyMerge Tensor :=
  <[0 := merge true true]> (fun _ => MultiplyMerge_new true false).

(** A layer that lists the branch at the handle 0 twice. *)
Definition shared : MultiplyMerge Tensor :=
  mkMultiplyMerge true true false [0; 0; 1] [].

(** The same collection in a layer that owns it. *)
Definition shared_owner : MultiplyMerge Tensor :=
  mkMultiplyMerge false true true [0; 0; 1] [].


(** The two branches at other handles of another heap, and a layer on them. *)
Definition heap1 : Heap Scale :=
  mkHeap (<[5 := branchA]> (<[3 := branchB]> (fun _ => blank))) [] 6.

Definition merge1 : MultiplyMerge Tensor :=
  mkMultiplyMerge true true false [5; 3] [].

(** What saving [merge true true] in [heap0] writes. *)
Definition archive0 : list (item Saved) :=
  [Size 2; Variant (branch_save branchA); Variant (branch_save branchB);
   Flag false; Flag true; Flag true].

(** What loading [archive0] in [heap0] gives. *)
Definition loaded0 : MultiplyMerge Tensor :=
  mkMultiplyMerge false true true [2; 3] [].

Definition heap0_loaded : Heap Scale := new_all [branchA; branchB] heap0.

End Mock.

(** * Properties *)

(** ** The counted loops over a vector *)

Section Loops.

Context {A State : Type}.

Lemma subscript_lookup (v : list A) (i : nat) (a : A) :
  v !! i = Some a -> subscript v i = Done a.
Proof. unfold subscript. by intros ->. Qed.

Lemma for_count_elements (v : list A) (f : A -> State -> State) (count from : nat) (s : State) :
  count = length v - from ->
  for_count count from (fun i s => a <- subscript v i ;; Done (f a s)) s
  = Done (fold_left (fun s a => f a s) (drop from v) s).
Proof.
  revert from s. induction count as [|count IH]; intros from s Hcount.
  - rewrite drop_ge by lia. reflexivity.
  - destruct (lookup_lt_is_Some_2 v from) as [a Ha]; [lia|].
    cbn [for_count]. rewrite (subscript_lookup _ _ _ Ha). cbn [bind].
    rewrite IH by lia. by rewrite (drop_S _ _ _ Ha).
Qed.

(** A loop that visits [v[from]], ..., [v[size - 1]] is a left fold over that
    part of the vector, and no subscript of it is out of range. *)
Lemma for_loop_elements (v : list A) (f : A -> State -> State) (from : nat) (s : State) :
  for_loop from (length v) (fun i s => a <- subscript v i ;; Done (f a s)) s
  = Done (fold_left (fun s a => f a s) (drop from v) s).
Proof. unfold for_loop. by apply for_count_elements. Qed.

Lemma for_each_fold_left (v : list A) (f : A -> State -> State) (s : State) :
  for_each v f s = fold_left (fun s a => f a s) v s.
Proof. revert s. induction v as [|a v IH]; intros s; [done|]. cbn. apply IH. Qed.

Lemma fold_left_map {B : Type} (op : State -> B -> State) (g : A -> B) (v : list A) (s : State) :
  fold_left (fun s a => op s (g a)) v s = fold_left op (map g v) s.
Proof. revert s. induction v as [|a v IH]; intros s; [done|]. cbn. apply IH. Qed.

End Loops.

Section Properties.

Context {Tensor Branch : Type} `{!Arma Tensor} `{!LayerTypes Tensor Branch}.

Local Abbreviation Heap := (Heap Branch).
Local Abbreviation MultiplyMerge := (MultiplyMerge Tensor).

Implicit Types (this : MultiplyMerge) (s : Heap) (input gy : Tensor) (h : handle).

(** ** Forward *)

Lemma Forward_unfold this input s :
  Forward this input s =
  let s' := if run this
            then fold_left (fun s h => ForwardVisitor input h s) (network this) s
            else s in
  match network this with
  | [] => Raise InvalidConfiguration
  | h :: t =>
      Done (s', fold_left schur (map (fun h => outputParameterVisitor h s') t)
                  (outputParameterVisitor h s'))
  end.
Proof.
  unfold Forward.
  assert (Hrun :
    (if run this
     then for_loop 0 (length (network this))
            (fun i s => h <- subscript (network this) i ;; Done (ForwardVisitor input h s)) s
     else Done s)
    = Done (if run this
            then fold_left (fun s h => ForwardVisitor input h s) (network this) s
            else s)).
  { destruct (run this); [|done].
    by rewrite (for_loop_elements _ (ForwardVisitor input)), drop_0. }
  rewrite Hrun. cbn [bind].
  destruct (network this) as [|h t] eqn:Hnet; [done|].
  cbn [front bind].
  rewrite (for_loop_elements (h :: t) (fun h' output => schur output (outputParameterVisitor h' _))).
  cbn [drop bind]. by rewrite fold_left_map.
Qed.

(** C1.  For a collection that is not empty, Forward leaves in [output] the
    left fold of the element-wise product over the branches' output
    parameters, seeded by the first branch's and taken in collection order.
    The outputs are those the branches hold once every branch's Forward has
    run on [input], in collection order, when [run] is true, and those they
    already hold when [run] is false, in which case no branch is touched. *)
Theorem Forward_folds_branch_outputs this input s h t :
  network this = h :: t ->
  let s' := if run this
            then fold_left (fun s h => ForwardVisitor input h s) (network this) s
            else s in
  Forward this input s =
  Done (s', fold_left schur (map (fun h => outputParameterVisitor h s') t)
              (outputParameterVisitor h s')).
Proof. intros Hnet. rewrite Forward_unfold. by rewrite Hnet. Qed.


(** ** Backward *)

Lemma Backward_unfold this input gy s :
  Backward this input gy s =
  if run this then
    let s' := fold_left (fun s h => BackwardVisitor (outputParameterVisitor h s) gy h s)
                (network this) s in
    match network this with
    | [] => Raise InvalidConfiguration
    | h :: t =>
        Done (s', fold_left mat_add (map (fun h => deltaVisitor h s') t) (deltaVisitor h s'))
    end
  else Done (s, gy).
Proof.
  unfold Backward. destruct (run this); [|done].
  rewrite (for_loop_elements _ (fun h s => BackwardVisitor (outputParameterVisitor h s) gy h s)).
  rewrite drop_0. cbn [bind].
  destruct (network this) as [|h t] eqn:Hnet; [done|].
  cbn [subscript lookup list_lookup bind].
  rewrite (for_loop_elements (h :: t) (fun h' g => mat_add g (deltaVisitor h' _))).
  cbn [drop bind]. by rewrite fold_left_map.
Qed.

(** C2.  With [run] true and a collection that is not empty, Backward calls
    every branch's Backward, in collection order, on that branch's stored
    output parameter and on [gy], and leaves in [g] the element-wise sum of
    the branches' deltas (a sum, not a product rule).  For two branches [g] is
    the first delta plus the second. *)
Theorem Backward_sums_branch_deltas this input gy s h t :
  run this = true ->
  network this = h :: t ->
  let s' := fold_left (fun s h => BackwardVisitor (outputParameterVisitor h s) gy h s)
              (network this) s in
  Backward this input gy s =
    Done (s', fold_left mat_add (map (fun h => deltaVisitor h s') t) (deltaVisitor h s')) /\
  (forall hB, t = [hB] ->
     Backward this input gy s = Done (s', mat_add (deltaVisitor h s') (deltaVisitor hB s'))).
Proof.
  intros Hrun Hnet. rewrite Backward_unfold, Hrun, Hnet. cbn zeta.
  split; [done|]. by intros hB ->.
Qed.

(** C3.  With [run] false, Backward leaves [gy] in [g] and the heap as it was:
    no branch is touched, whatever the collection holds. *)
Theorem Backward_passes_gradient_through this input gy s :
  run this = false ->
  Backward this input gy s = Done (s, gy).
Proof. intros Hrun. by rewrite Backward_unfold, Hrun. Qed.

(** C10.  Backward does not read its first argument: two calls that differ
    only in it give the same [g] and the same heap. *)
Theorem Backward_ignores_input this input1 input2 gy s :
  Backward this input1 gy s = Backward this input2 gy s.
Proof. by rewrite !Backward_unfold. Qed.

(** ** Gradient *)

(** C8.  With [run] true, Gradient calls every branch's Gradient on [input]
    and [error], in collection order, and with [run] false it changes
    nothing; in both cases the [gradient] argument keeps its value. *)
Theorem Gradient_visits_branches_only this input error gradient s :
  Gradient this input error gradient s =
  Done (if run this
        then fold_left (fun s h => GradientVisitor input error h s) (network this) s
        else s,
        gradient).
Proof.
  unfold Gradient. destruct (run this); [|done].
  by rewrite (for_loop_elements _ (GradientVisitor input error)), drop_0.
Qed.

(** ** Construction and destruction *)

(** C7.  A layer built from [model] and [run] has [ownsLayer] equal to the
    negation of [model], the given [run] flag and an empty collection. *)
Theorem MultiplyMerge_new_state (m r : bool) :
  ownsLayer (MultiplyMerge_new m r) = negb m /\
  run (MultiplyMerge_new m r) = r /\
  network (MultiplyMerge_new m r) = [] /\
  model (MultiplyMerge_new m r) = m.
Proof. done. Qed.

Lemma deleteVisitor_fold (v : list handle) s :
  fold_left (fun s h => deleteVisitor h s) v s = mkHeap (layers s) (freed s ++ v) (brk s).
Proof.
  revert s. induction v as [|h v IH]; intros s; cbn.
  - rewrite app_nil_r. by destruct s.
  - rewrite IH. cbn. by rewrite <- app_assoc.
Qed.

Lemma occurrences_absent (v : list handle) h :
  ~ In h v -> length (filter (eq h) v) = 0.
Proof.
  induction v as [|a v IH]; intros Hin; [done|].
  rewrite filter_cons_False; [apply IH|]; intros ?; apply Hin; cbn; auto.
Qed.

Lemma occurrences_NoDup (v : list handle) h :
  NoDup v -> In h v -> length (filter (eq h) v) = 1.
Proof.
  induction 1 as [|a v Ha Hv IH]; intros Hin; [done|].
  destruct (decide (h = a)) as [->|Hne].
  - rewrite filter_cons_True by done. cbn. f_equal.
    apply occurrences_absent. by rewrite <- list_elem_of_In.
  - rewrite filter_cons_False by done. apply IH.
    destruct Hin as [->|Hin]; done.
Qed.

Lemma destroyed_app (v : list handle) h s :
  destroyed h (mkHeap (layers s) (freed s ++ v) (brk s))
  = destroyed h s + length (filter (eq h) v).
Proof. unfold destroyed. cbn. by rewrite list.filter_app, length_app. Qed.

(** C5.  When [ownsLayer] is true the destructor applies [delete]
    to the entries of the collection, once each and in collection order, and
    to nothing else: a branch is destroyed once for every entry that holds its
    handle, so exactly once in a collection of distinct handles (and twice
    when two entries hold it), and a branch outside the collection is not
    destroyed.  When [ownsLayer] is false the destructor leaves the heap as it
    was, so it destroys no branch. *)
Theorem destructor_destroys_each_branch_once this s :
  (ownsLayer this = true ->
     freed (destructor this s) = freed s ++ network this /\
     (forall h, destroyed h (destructor this s)
                = destroyed h s + entries h (network this)) /\
     (NoDup (network this) ->
      forall h, In h (network this) ->
        destroyed h (destructor this s) = S (destroyed h s)) /\
     (forall h, ~ In h (network this) ->
        destroyed h (destructor this s) = destroyed h s)) /\
  (ownsLayer this = false -> destructor this s = s).
Proof.
  unfold destructor. split; intros ->; [|done].
  rewrite for_each_fold_left, deleteVisitor_fold.
  split; [done|]. split; [|split].
  - intros h. by rewrite destroyed_app.
  - intros Hnd h Hin. rewrite destroyed_app, occurrences_NoDup by done. lia.
  - intros h Hin. rewrite destroyed_app, occurrences_absent by done. lia.
Qed.

(** ** Copy and move *)

Lemma MultiplyMerge_eta (o : MultiplyMerge) :
  mkMultiplyMerge (model o) (run o) (ownsLayer o) (network o) (weights o) = o.
Proof. by destruct o. Qed.

(** C9.  The copy constructor and the copy assignment give the target the
    model, run and ownsLayer flags, the collection of handles and the weights
    of the source, so the target owns the same handles when the source does;
    the source and every other object keep their state.  Assigning an object
    to itself, by copy or by move, changes nothing. *)
Theorem copy_is_verbatim_and_self_assignment_is_noop
    (this layer : addr) (m : addr -> MultiplyMerge) :
  (MultiplyMerge_copy this layer m this = m layer /\
   operator_assign this layer m this = m layer /\
   operator_assign this layer m layer = m layer) /\
  (ownsLayer (MultiplyMerge_copy this layer m this) = ownsLayer (m layer) /\
   network (MultiplyMerge_copy this layer m this) = network (m layer) /\
   ownsLayer (operator_assign this layer m this) = ownsLayer (m layer) /\
   network (operator_assign this layer m this) = network (m layer)) /\
  (forall a, a <> this ->
     MultiplyMerge_copy this layer m a = m a /\ operator_assign this layer m a = m a) /\
  operator_assign this this m = m /\
  operator_assign_move this this m = m.
Proof.
  assert (Hcopy : MultiplyMerge_copy this layer m this = m layer).
  { unfold MultiplyMerge_copy. by rewrite fn_lookup_insert, MultiplyMerge_eta. }
  assert (Hthis : operator_assign this layer m this = m layer).
  { unfold operator_assign. case_decide as Hne; [|by destruct (decide (this = layer)) as [->|]].
    unfold set_weights, set_network, set_ownsLayer, set_run, set_model.
    rewrite !fn_lookup_alter, !fn_lookup_alter_ne by done. cbn.
    apply MultiplyMerge_eta. }
  assert (Hother : forall a, a <> this -> operator_assign this layer m a = m a).
  { intros a Ha. unfold operator_assign. case_decide; [|done].
    unfold set_weights, set_network, set_ownsLayer, set_run, set_model.
    by rewrite !fn_lookup_alter_ne. }
  repeat split.
  - done.
  - done.
  - destruct (decide (layer = this)) as [->|Hne]; [done|by apply Hother].
  - by rewrite Hcopy.
  - by rewrite Hcopy.
  - by rewrite Hthis.
  - by rewrite Hthis.
  - unfold MultiplyMerge_copy. by rewrite fn_lookup_insert_ne.
  - by apply Hother.
  - unfold operator_assign. by case_decide.
  - unfold operator_assign_move. by case_decide.
Qed.

(** ** What Forward's output depends on *)

Lemma ForwardVisitor_fold_absent input (v : list handle) s h :
  ~ In h v ->
  layers (fold_left (fun s h => ForwardVisitor input h s) v s) h = layers s h.
Proof.
  revert s. induction v as [|a v IH]; intros s Hin; [done|].
  cbn [fold_left]. rewrite IH by (intros ?; apply Hin; by right).
  cbn. apply fn_lookup_alter_ne. intros ->. apply Hin. by left.
Qed.

Lemma ForwardVisitor_fold_NoDup input (v : list handle) s h :
  NoDup v -> In h v ->
  layers (fold_left (fun s h => ForwardVisitor input h s) v s) h
  = branch_Forward input (layers s h).
Proof.
  intros Hnd. revert s. induction Hnd as [|a v Ha Hv IH]; intros s Hin; [done|].
  cbn [fold_left]. destruct (decide (h = a)) as [->|Hne].
  - rewrite ForwardVisitor_fold_absent by (by rewrite <- list_elem_of_In).
    cbn. apply fn_lookup_alter.
  - rewrite IH by (destruct Hin as [->|Hin]; done).
    cbn. f_equal. by apply fn_lookup_alter_ne.
Qed.

Lemma ForwardVisitor_fold_idempotent input (v : list handle) s h :
  (forall b : Branch,
     branch_Forward input (branch_Forward input b) = branch_Forward input b) ->
  In h v ->
  layers (fold_left (fun s h => ForwardVisitor input h s) v s) h
  = branch_Forward input (layers s h).
Proof.
  intros Hidem. revert s. induction v as [|a v IH]; intros s Hin; [done|].
  cbn [fold_left]. destruct (in_dec Nat.eq_dec h v) as [Hv|Hv].
  - rewrite IH by done. cbn. destruct (decide (h = a)) as [->|Hne].
    + by rewrite fn_lookup_alter, Hidem.
    + by rewrite fn_lookup_alter_ne.
  - destruct Hin as [->|Hin]; [|done].
    rewrite ForwardVisitor_fold_absent by done. cbn. apply fn_lookup_alter.
Qed.

(** When Forward drives no branch twice, or a second call leaves a branch as
    it is, the output of Forward is a function of the branch objects the
    collection designates. *)
Lemma Forward_output_of_contents this input s :
  forwards_once this ->
  outcome_map snd (Forward this input s) =
  fold_seeded schur
    (map (fun b => OutputParameter (if run this then branch_Forward input b else b))
       (map (layers s) (network this))).
Proof.
  intros Honce. rewrite Forward_unfold. cbn zeta.
  set (s' := if run this then _ else s).
  assert (Hout : forall h, In h (network this) ->
            outputParameterVisitor h s'
            = OutputParameter (if run this then branch_Forward input (layers s h)
                               else layers s h)).
  { intros h Hin. unfold outputParameterVisitor, s'.
    destruct (run this) eqn:Hrun; [|done]. f_equal.
    destruct Honce as [?|[Hnd|Hidem]]; [congruence| |].
    - by apply ForwardVisitor_fold_NoDup.
    - by apply ForwardVisitor_fold_idempotent. }
  destruct (network this) as [|h t]; [done|].
  cbn. rewrite Hout by (by left). do 2 f_equal.
  rewrite map_map. apply map_ext_in. intros h' Hin. apply Hout. by right.
Qed.

End Properties.

(** ** Serialization *)

Section Persistence.

Context {Tensor Branch Payload : Type}.
Context `{!Arma Tensor} `{!LayerTypes Tensor Branch} `{!Persistent Branch Payload}.

Local Abbreviation Heap := (Heap Branch).
Local Abbreviation MultiplyMerge := (MultiplyMerge Tensor).

Implicit Types (this target : MultiplyMerge) (s : Heap) (h : handle).

Lemma save_branches_map (v : list handle) s :
  save_branches v s
  = map (@Variant Payload) (map branch_save (map (layers s) v)).
Proof. induction v as [|h v IH]; [done|]. cbn. by rewrite IH. Qed.

Lemma new_all_cons (b : Branch) (bs : list Branch) s :
  new_all (b :: bs) s = new_all bs (snd (new b s)).
Proof. reflexivity. Qed.

Lemma new_all_brk (bs : list Branch) s :
  brk (new_all bs s) = brk s + length bs.
Proof.
  revert s. induction bs as [|b bs IH]; intros s.
  - cbn. lia.
  - rewrite new_all_cons, IH. cbn. lia.
Qed.

Lemma new_all_below (bs : list Branch) s h :
  h < brk s -> layers (new_all bs s) h = layers s h.
Proof.
  revert s. induction bs as [|b bs IH]; intros s Hlt; [done|].
  rewrite new_all_cons, IH by (cbn; lia).
  cbn. apply fn_lookup_insert_ne. lia.
Qed.

(** The handles [new] gives out designate the new branches, in order. *)
Lemma new_all_contents (bs : list Branch) s :
  map (layers (new_all bs s)) (seq (brk s) (length bs)) = bs.
Proof.
  revert s. induction bs as [|b bs IH]; intros s; [done|].
  rewrite new_all_cons. cbn [length seq map]. f_equal.
  - rewrite new_all_below by (cbn; lia). cbn. apply fn_lookup_insert.
  - apply (IH (snd (new b s))).
Qed.

Lemma load_branches_saved (ps : list Payload) (v : list handle)
    (rest : list (item Payload)) s :
  load_branches (length ps) v (map Variant ps ++ rest) s
  = Done (v ++ seq (brk s) (length ps), rest, new_all (map branch_load ps) s).
Proof.
  revert v s. induction ps as [|p ps IH]; intros v s.
  - cbn. by rewrite app_nil_r.
  - cbn. rewrite IH. cbn. by rewrite <- app_assoc.
Qed.




End Persistence.

(** * Further properties of the layer *)

Section Calls.

Context {Tensor Branch : Type} `{!Arma Tensor} `{!LayerTypes Tensor Branch}.

Local Abbreviation Heap := (Heap Branch).
Local Abbreviation MultiplyMerge := (MultiplyMerge Tensor).

Implicit Types (this : MultiplyMerge) (s : Heap) (input gy : Tensor) (h : handle).

(** ** How often a branch is called *)

Lemma entries_cons_eq h (v : list handle) : entries h (h :: v) = S (entries h v).
Proof. unfold entries. by rewrite filter_cons_True. Qed.

Lemma entries_cons_ne h a (v : list handle) : h <> a -> entries h (a :: v) = entries h v.
Proof. intros Hne. unfold entries. by rewrite filter_cons_False. Qed.

Lemma entries_app h (v w : list handle) : entries h (v ++ w) = entries h v + entries h w.
Proof. unfold entries. by rewrite list.filter_app, length_app. Qed.

(** A pass that applies [f] to the branch of every entry leaves each branch
    with [f] applied once per entry that holds its handle, and frees and
    allocates nothing. *)
Lemma visit_fold (f : Branch -> Branch) (v : list handle) s :
  let s' := fold_left (fun s h => with_layers (alter f h) s) v s in
  freed s' = freed s /\ brk s' = brk s /\
  forall h, layers s' h = Nat.iter (entries h v) f (layers s h).
Proof.
  revert s. induction v as [|a v IH]; intros s; [done|].
  cbn [fold_left]. destruct (IH (with_layers (alter f a) s)) as (Hfreed & Hbrk & Hlayers).
  split; [done|]. split; [done|]. intros h. rewrite Hlayers.
  change (layers (with_layers (alter f a) s) h) with (alter f a (layers s) h).
  destruct (decide (h = a)) as [->|Hne].
  - by rewrite fn_lookup_alter, entries_cons_eq, Nat.iter_succ_r.
  - by rewrite fn_lookup_alter_ne, entries_cons_ne.
Qed.

(** X1.  Forward on a collection that is not empty returns; it applies no
    [delete] and no [new], and it leaves every branch with its own Forward
    applied to it once per entry of the collection that holds its handle when
    [run] is true, and untouched when [run] is false.  A branch outside the
    collection is never touched. *)
Theorem Forward_calls_per_entry this input s :
  network this <> [] ->
  exists s' output,
    Forward this input s = Done (s', output) /\
    freed s' = freed s /\ brk s' = brk s /\
    (forall h, layers s' h
               = Nat.iter (if run this then entries h (network this) else 0)
                   (branch_Forward input) (layers s h)) /\
    (forall h, ~ In h (network this) -> layers s' h = layers s h).
Proof.
  intros Hne. rewrite Forward_unfold. cbn zeta.
  destruct (network this) as [|h0 t] eqn:Hnet; [done|]. rewrite <- Hnet.
  eexists. eexists. split; [reflexivity|].
  assert (Hall : forall h,
    layers (if run this
            then fold_left (fun s h => ForwardVisitor input h s) (network this) s
            else s) h
    = Nat.iter (if run this then entries h (network this) else 0)
        (branch_Forward input) (layers s h)).
  { intros h. destruct (run this); [|done].
    apply (visit_fold (branch_Forward input) (network this) s). }
  split; [|split; [|split]].
  - destruct (run this); [|done].
    apply (visit_fold (branch_Forward input) (network this) s).
  - destruct (run this); [|done].
    apply (visit_fold (branch_Forward input) (network this) s).
  - exact Hall.
  - intros h Hin. rewrite Hall.
    unfold entries. rewrite occurrences_absent by done. by destruct (run this).
Qed.

(** X2.  Backward takes the error branch exactly when [run] is true and the
    collection is empty, where it reads the first element of an empty vector;
    in every other case it returns. *)
Theorem Backward_raises_iff_run_and_empty this input gy s :
  (Backward this input gy s = Raise InvalidConfiguration
   <-> run this = true /\ network this = []) /\
  (run this = false \/ network this <> [] ->
   exists r, Backward this input gy s = Done r).
Proof.
  rewrite Backward_unfold.
  destruct (run this), (network this) as [|h t]; cbn zeta.
  - split; [done|]. intros [?|?]; done.
  - split; [split; [done|intros [_ ?]; done]|]. intros _; eauto.
  - split; [split; [done|intros [? _]; done]|]. intros _; eauto.
  - split; [split; [done|intros [? _]; done]|]. intros _; eauto.
Qed.

(** X3.  Backward, when it returns, applies no [delete] and no [new]; with
    [run] true it leaves every branch with its own Backward, on the output the
    branch holds at the time of the call and on [gy], applied once per entry
    that holds its handle, and a branch outside the collection is never
    touched. *)
Theorem Backward_calls_per_entry this input gy s :
  run this = true ->
  network this <> [] ->
  exists s' g,
    Backward this input gy s = Done (s', g) /\
    freed s' = freed s /\ brk s' = brk s /\
    (forall h, layers s' h
               = Nat.iter (entries h (network this))
                   (fun b => branch_Backward (OutputParameter b) gy b) (layers s h)) /\
    (forall h, ~ In h (network this) -> layers s' h = layers s h).
Proof.
  intros Hrun Hne. rewrite Backward_unfold, Hrun. cbn zeta.
  destruct (network this) as [|h0 t] eqn:Hnet; [done|]. rewrite <- Hnet.
  eexists. eexists. split; [reflexivity|].
  change (fold_left (fun s h => BackwardVisitor (outputParameterVisitor h s) gy h s)
            (network this) s)
    with (fold_left
            (fun s h =>
               with_layers (alter (fun b => branch_Backward (OutputParameter b) gy b) h) s)
            (network this) s).
  destruct (visit_fold (fun b => branch_Backward (OutputParameter b) gy b) (network this) s)
    as (Hfreed & Hbrk & Hlayers).
  split; [exact Hfreed|]. split; [exact Hbrk|]. split; [exact Hlayers|].
  intros h Hin. rewrite (Hlayers h). unfold entries. by rewrite occurrences_absent.
Qed.

(** X4.  Gradient applies no [delete] and no [new]; with [run] true it leaves
    every branch with its own Gradient on [input] and [error] applied once per
    entry that holds its handle, and a branch outside the collection is never
    touched. *)
Theorem Gradient_calls_per_entry this input error gradient s :
  exists s',
    Gradient this input error gradient s = Done (s', gradient) /\
    freed s' = freed s /\ brk s' = brk s /\
    (forall h, layers s' h
               = Nat.iter (if run this then entries h (network this) else 0)
                   (branch_Gradient input error) (layers s h)) /\
    (forall h, ~ In h (network this) -> layers s' h = layers s h).
Proof.
  unfold Gradient. destruct (run this).
  - rewrite (for_loop_elements _ (GradientVisitor input error)), drop_0. cbn [bind].
    eexists. split; [reflexivity|].
    destruct (visit_fold (branch_Gradient input error) (network this) s)
      as (Hfreed & Hbrk & Hlayers).
    split; [exact Hfreed|]. split; [exact Hbrk|]. split; [exact Hlayers|].
    intros h Hin. etransitivity; [apply Hlayers|].
    unfold entries. by rewrite occurrences_absent.
  - exists s. by repeat split.
Qed.

(** ** What the results depend on *)

Lemma Backward_g_contents this input gy s :
  run this = true ->
  NoDup (network this) ->
  outcome_map snd (Backward this input gy s) =
  fold_seeded mat_add
    (map (fun b => Delta (branch_Backward (OutputParameter b) gy b))
       (map (layers s) (network this))).
Proof.
  intros Hrun Hnd. rewrite Backward_unfold, Hrun. cbn zeta.
  set (s' := fold_left _ (network this) s).
  assert (Hdelta : forall h, In h (network this) ->
            deltaVisitor h s'
            = Delta (branch_Backward (OutputParameter (layers s h)) gy (layers s h))).
  { intros h Hin. unfold deltaVisitor. f_equal.
    destruct (visit_fold (fun b => branch_Backward (OutputParameter b) gy b)
                (network this) s) as (_ & _ & Hlayers).
    etransitivity; [apply Hlayers|].
    unfold entries. by rewrite occurrences_NoDup. }
  destruct (network this) as [|h t]; [done|].
  cbn. rewrite Hdelta by (by left). do 2 f_equal.
  rewrite map_map. apply map_ext_in. intros h' Hin. apply Hdelta. by right.
Qed.

(** X5.  With [run] true and distinct handles, the value Backward leaves in
    [g] is the left fold of the sum over the deltas that the branches compute,
    each from the output parameter it holds before the call and from [gy]; on
    an empty collection both sides are the error. *)
Theorem Backward_g_of_contents this input gy s :
  run this = true ->
  NoDup (network this) ->
  outcome_map snd (Backward this input gy s) =
  fold_seeded mat_add
    (map (fun b => Delta (branch_Backward (OutputParameter b) gy b))
       (map (layers s) (network this))).
Proof. apply Backward_g_contents. Qed.

(** X16.  A Backward that follows a Forward works on what the Forward left:
    with [run] true and distinct handles, [g] is the sum of the deltas that
    the branches compute from the outputs their Forward has just written, and
    the input given to Backward plays no part. *)
Theorem Forward_then_Backward this input input' gy s :
  run this = true ->
  NoDup (network this) ->
  network this <> [] ->
  exists s1 output,
    Forward this input s = Done (s1, output) /\
    outcome_map snd (Backward this input' gy s1) =
    fold_seeded mat_add
      (map (fun b => Delta (branch_Backward (OutputParameter (branch_Forward input b)) gy
                              (branch_Forward input b)))
         (map (layers s) (network this))).
Proof.
  intros Hrun Hnd Hne. rewrite Forward_unfold, Hrun. cbn zeta.
  destruct (network this) as [|h0 t] eqn:Hnet; [done|]. rewrite <- Hnet in *.
  eexists. eexists. split; [reflexivity|].
  rewrite Backward_g_contents by done. f_equal.
  rewrite !map_map. apply map_ext_in. intros h Hin.
  by rewrite ForwardVisitor_fold_NoDup.
Qed.

(** X6.  The output of Forward is decided by [run], the input and the branch
    objects the collection designates, in collection order: two layers, in two
    heaps, that agree on these give the same output, whatever their handles,
    their other members and the rest of the heaps are (for layers of which
    Forward drives no branch twice, or branches that a second call leaves as
    they are). *)
Theorem Forward_output_depends_on_branches this1 this2 input (s1 s2 : Heap) :
  run this1 = run this2 ->
  forwards_once this1 ->
  forwards_once this2 ->
  map (layers s1) (network this1) = map (layers s2) (network this2) ->
  outcome_map snd (Forward this1 input s1) = outcome_map snd (Forward this2 input s2).
Proof.
  intros Hrun Honce1 Honce2 Hsame.
  rewrite !Forward_output_of_contents by done. by rewrite Hrun, Hsame.
Qed.

(** ** A new layer *)

(** X7.  A layer that was just constructed holds no branch: Forward fails on
    it, Backward fails on it when [run] is true and passes [gy] through when
    [run] is false, Gradient changes nothing, and its destructor destroys
    nothing even though the layer owns its collection when [model] is false. *)
Theorem new_layer_holds_no_branch (m r : bool) input error gradient gy s :
  Forward (MultiplyMerge_new m r) input s = Raise InvalidConfiguration /\
  Backward (MultiplyMerge_new m r) input gy s
    = (if r then Raise InvalidConfiguration else Done (s, gy)) /\
  Gradient (MultiplyMerge_new m r) input error gradient s = Done (s, gradient) /\
  destructor (MultiplyMerge_new m r) s = s.
Proof. by destruct m, r. Qed.

(** ** Ownership after a copy and after a move *)

(** Reads a member of an object after a sequence of member writes. *)
Ltac read_members :=
  unfold set_weights, set_network, set_ownsLayer, set_run, set_model;
  repeat first [rewrite fn_lookup_alter | rewrite fn_lookup_alter_ne by auto];
  cbn [model run ownsLayer network weights].

Lemma destructor_owning this s :
  ownsLayer this = true ->
  destructor this s = mkHeap (layers s) (freed s ++ network this) (brk s).
Proof.
  intros Hown. unfold destructor. rewrite Hown.
  by rewrite for_each_fold_left, deleteVisitor_fold.
Qed.

Lemma destructor_empty this s : network this = [] -> destructor this s = s.
Proof. intros Hnet. unfold destructor. rewrite Hnet. by destruct (ownsLayer this). Qed.

Lemma MultiplyMerge_copy_lookup (this layer a : addr) (m : addr -> MultiplyMerge) :
  MultiplyMerge_copy this layer m a = if decide (a = this) then m layer else m a.
Proof.
  unfold MultiplyMerge_copy. rewrite MultiplyMerge_eta. case_decide as Ha.
  - subst. apply fn_lookup_insert.
  - by apply fn_lookup_insert_ne.
Qed.

Lemma operator_assign_lookup (this layer a : addr) (m : addr -> MultiplyMerge) :
  operator_assign this layer m a = if decide (a = this) then m layer else m a.
Proof.
  unfold operator_assign. case_decide as Hne.
  - unfold set_weights, set_network, set_ownsLayer, set_run, set_model.
    case_decide as Ha.
    + subst. rewrite !fn_lookup_alter, !fn_lookup_alter_ne by done. cbn.
      apply MultiplyMerge_eta.
    + by rewrite !fn_lookup_alter_ne.
  - destruct (decide (this = layer)) as [->|]; [|done]. by case_decide; subst.
Qed.

(** X8.  After a copy construction or a copy assignment from an owning layer,
    the source and the target both own the same handles: destroying the two
    objects applies [delete] to every entry of the collection twice. *)
Theorem copy_then_destroy_both_deletes_twice
    (this layer : addr) (m : addr -> MultiplyMerge) s :
  ownsLayer (m layer) = true ->
  (let m' := MultiplyMerge_copy this layer m in
   let s' := destructor (m' this) (destructor (m' layer) s) in
   freed s' = freed s ++ network (m layer) ++ network (m layer) /\
   forall h, destroyed h s' = destroyed h s + 2 * entries h (network (m layer))) /\
  (let m' := operator_assign this layer m in
   let s' := destructor (m' this) (destructor (m' layer) s) in
   freed s' = freed s ++ network (m layer) ++ network (m layer) /\
   forall h, destroyed h s' = destroyed h s + 2 * entries h (network (m layer))).
Proof.
  intros Hown.
  assert (Htwice : forall o1 o2 : MultiplyMerge, o1 = m layer -> o2 = m layer ->
    freed (destructor o1 (destructor o2 s))
      = freed s ++ network (m layer) ++ network (m layer) /\
    forall h, destroyed h (destructor o1 (destructor o2 s))
              = destroyed h s + 2 * entries h (network (m layer))).
  { intros o1 o2 -> ->. rewrite !destructor_owning by done. cbn [freed layers brk].
    split; [by rewrite <- app_assoc|].
    intros h. unfold destroyed, entries. cbn [freed].
    rewrite !list.filter_app, !length_app. lia. }
  split; cbn zeta.
  - apply Htwice; rewrite MultiplyMerge_copy_lookup;
      [by rewrite decide_True|by case_decide; subst].
  - apply Htwice; rewrite operator_assign_lookup;
      [by rewrite decide_True|by case_decide; subst].
Qed.

(** X9.  The move constructor gives the target the members of the source and
    leaves the source with its flags, an empty collection and empty weights;
    no other object changes.  Destroying the source then destroys nothing,
    and destroying both objects destroys what destroying the source alone
    would have destroyed before the move. *)
Theorem move_construction_transfers_ownership
    (this layer : addr) (m : addr -> MultiplyMerge) s :
  this <> layer ->
  let m' := MultiplyMerge_move this layer m in
  m' this = m layer /\
  m' layer = mkMultiplyMerge (model (m layer)) (run (m layer)) (ownsLayer (m layer))
               [] empty_mat /\
  (forall a, a <> this -> a <> layer -> m' a = m a) /\
  destructor (m' layer) s = s /\
  destructor (m' this) (destructor (m' layer) s) = destructor (m layer) s.
Proof.
  intros Hne m'.
  assert (Hthis : m' this = m layer).
  { unfold m', MultiplyMerge_move. by rewrite fn_lookup_insert, MultiplyMerge_eta. }
  assert (Hlayer : m' layer = mkMultiplyMerge (model (m layer)) (run (m layer))
                                (ownsLayer (m layer)) [] empty_mat).
  { unfold m', MultiplyMerge_move, set_weights, set_network.
    rewrite fn_lookup_insert_ne by done. by rewrite !fn_lookup_alter. }
  assert (Hgone : destructor (m' layer) s = s).
  { apply destructor_empty. by rewrite Hlayer. }
  split; [exact Hthis|]. split; [exact Hlayer|]. split; [|split; [exact Hgone|]].
  - intros a Ha1 Ha2. unfold m', MultiplyMerge_move, set_weights, set_network.
    rewrite fn_lookup_insert_ne by done. by rewrite !fn_lookup_alter_ne.
  - by rewrite Hgone, Hthis.
Qed.

(** X10.  The move assignment between two different objects gives the target
    the members of the source and leaves the source with its flags, an empty
    collection and empty weights; no other object changes.  Destroying the
    source then destroys nothing, and destroying both objects destroys what
    destroying the source alone would have destroyed before the move. *)
Theorem move_assignment_transfers_ownership
    (this layer : addr) (m : addr -> MultiplyMerge) s :
  this <> layer ->
  let m' := operator_assign_move this layer m in
  m' this = m layer /\
  m' layer = mkMultiplyMerge (model (m layer)) (run (m layer)) (ownsLayer (m layer))
               [] empty_mat /\
  (forall a, a <> this -> a <> layer -> m' a = m a) /\
  destructor (m' layer) s = s /\
  destructor (m' this) (destructor (m' layer) s) = destructor (m layer) s.
Proof.
  intros Hne m'.
  assert (Hne' : layer <> this) by auto.
  assert (Hthis : m' this = m layer).
  { unfold m', operator_assign_move. rewrite decide_True by done.
    read_members. apply MultiplyMerge_eta. }
  assert (Hlayer : m' layer = mkMultiplyMerge (model (m layer)) (run (m layer))
                                (ownsLayer (m layer)) [] empty_mat).
  { unfold m', operator_assign_move. rewrite decide_True by done.
    by read_members. }
  assert (Hgone : destructor (m' layer) s = s).
  { apply destructor_empty. by rewrite Hlayer. }
  split; [exact Hthis|]. split; [exact Hlayer|]. split; [|split; [exact Hgone|]].
  - intros a Ha1 Ha2. unfold m', operator_assign_move. rewrite decide_True by done.
    unfold set_weights, set_network, set_ownsLayer, set_run, set_model.
    by rewrite !fn_lookup_alter_ne.
  - by rewrite Hgone, Hthis.
Qed.

End Calls.

(** * Further properties of serialization *)

Section Loading.

Context {Tensor Branch Payload : Type}.
Context `{!Arma Tensor} `{!LayerTypes Tensor Branch} `{!Persistent Branch Payload}.

Local Abbreviation Heap := (Heap Branch).
Local Abbreviation MultiplyMerge := (MultiplyMerge Tensor).

Implicit Types (this target : MultiplyMerge) (s : Heap) (h : handle).
Implicit Types (pending rest written : list (item Payload)) (ps : list Payload).

(** The items [serialize] writes for a layer: the branch count, the branches
    in collection order, then [model], [run] and [ownsLayer]. *)
Lemma serialize_save_onto this written s :
  serialize this (OutputArchive written) s
  = Done (this,
          OutputArchive
            (written ++
             Size (length (network this))
             :: map Variant (map branch_save (map (layers s) (network this)))
             ++ [Flag (model this); Flag (run this); Flag (ownsLayer this)]),
          s).
Proof.
  unfold serialize. cbn. rewrite save_branches_map, MultiplyMerge_eta.
  by rewrite <- !app_assoc.
Qed.

Lemma serialize_load_rest target ps (m r o : bool) rest s :
  serialize target
    (InputArchive (Size (length ps) :: map Variant ps ++ Flag m :: Flag r :: Flag o :: rest)) s
  = Done (mkMultiplyMerge m r o (seq (brk s) (length ps)) (weights target),
          InputArchive rest,
          new_all (map branch_load ps) s).
Proof. unfold serialize. cbn. by rewrite load_branches_saved. Qed.

Lemma load_branches_inv (count : nat) (v v' : list handle) pending rest s s' :
  load_branches count v pending s = Done (v', rest, s') ->
  exists ps, length ps = count /\ pending = map Variant ps ++ rest /\
             v' = v ++ seq (brk s) count /\ s' = new_all (map branch_load ps) s.
Proof.
  revert v pending s. induction count as [|count IH]; intros v pending s Hload.
  - cbn in Hload. injection Hload as -> -> ->. exists []. by rewrite app_nil_r.
  - cbn in Hload. destruct pending as [|[n|p|b] pending]; try done.
    apply IH in Hload as (ps & Hlen & -> & -> & ->).
    exists (p :: ps). cbn. by rewrite Hlen, <- app_assoc.
Qed.

Lemma load_branches_error (count : nat) (v : list handle) pending s e :
  load_branches count v pending s = Raise e -> e = MalformedArchive.
Proof.
  revert v pending s. induction count as [|count IH]; intros v pending s Hload; [done|].
  cbn in Hload. destruct pending as [|[n|p|b] pending]; try congruence.
  by eapply IH.
Qed.

Lemma new_all_freed (bs : list Branch) s : freed (new_all bs s) = freed s.
Proof.
  revert s. induction bs as [|b bs IH]; intros s; [done|].
  by rewrite new_all_cons, IH.
Qed.

Lemma serialize_load_inv target pending s0 target' ar' s' :
  serialize target (InputArchive pending) s0 = Done (target', ar', s') ->
  exists ps (m r o : bool) rest,
    pending = Size (length ps) :: map Variant ps ++ Flag m :: Flag r :: Flag o :: rest /\
    target' = mkMultiplyMerge m r o (seq (brk s0) (length ps)) (weights target) /\
    ar' = InputArchive rest /\
    s' = new_all (map branch_load ps) s0.
Proof.
  unfold serialize. cbn.
  destruct pending as [|[count|p|b] pending]; try done. cbn.
  destruct (load_branches count [] pending s0) as [[[v pending'] s1]|e] eqn:Hload;
    [|done].
  apply load_branches_inv in Hload as (ps & <- & -> & -> & ->). cbn.
  destruct pending' as [|[?|?|m] pending']; try done. cbn.
  destruct pending' as [|[?|?|r] pending']; try done. cbn.
  destruct pending' as [|[?|?|o] pending']; try done. cbn.
  intros [= <- <- <-]. by exists ps, m, r, o, pending'.
Qed.

(** X11.  Loading succeeds exactly on an archive that starts with a branch
    count, that many branches and three flags, which it reads as [model],
    [run] and [ownsLayer] in this order; it consumes these items and nothing
    after them, and every failure is a [MalformedArchive]. *)
Theorem load_reads_count_branches_flags target pending s0 :
  (forall target' ar' s',
     serialize target (InputArchive pending) s0 = Done (target', ar', s') <->
     exists ps (m r o : bool) rest,
       pending = Size (length ps) :: map Variant ps ++ Flag m :: Flag r :: Flag o :: rest /\
       target' = mkMultiplyMerge m r o (seq (brk s0) (length ps)) (weights target) /\
       ar' = InputArchive rest /\
       s' = new_all (map branch_load ps) s0) /\
  (forall e, serialize target (InputArchive pending) s0 = Raise e -> e = MalformedArchive).
Proof.
  split.
  - intros target' ar' s'. split; [apply serialize_load_inv|].
    intros (ps & m & r & o & rest & -> & -> & -> & ->). apply serialize_load_rest.
  - intros e. unfold serialize. cbn.
    destruct pending as [|[count|p|b] pending]; try (cbn; congruence). cbn.
    destruct (load_branches count [] pending s0) as [[[v pending'] s1]|e'] eqn:Hload.
    + cbn.
      destruct pending' as [|[?|?|m] pending']; try (cbn; congruence). cbn.
      destruct pending' as [|[?|?|r] pending']; try (cbn; congruence). cbn.
      destruct pending' as [|[?|?|o] pending']; cbn; congruence.
    + cbn. intros [= <-]. by eapply load_branches_error.
Qed.

(** X12.  A load applies no [delete] and changes no branch that exists
    already: the branches the target held are dropped from the collection,
    not destroyed, whatever [ownsLayer] is.  The loaded collection consists of
    distinct handles, all of them newly given out. *)
Theorem load_drops_held_branches_undestroyed target pending s0 target' ar' s' :
  serialize target (InputArchive pending) s0 = Done (target', ar', s') ->
  freed s' = freed s0 /\
  (forall h, h < brk s0 -> layers s' h = layers s0 h) /\
  brk s' = brk s0 + length (network target') /\
  NoDup (network target') /\
  (forall h, In h (network target') -> brk s0 <= h < brk s').
Proof.
  intros Hload.
  apply serialize_load_inv in Hload as (ps & m & r & o & rest & -> & -> & -> & ->).
  cbn [network]. rewrite new_all_freed, new_all_brk, !length_seq, !length_map.
  split; [done|]. split; [intros h Hlt; by apply new_all_below|].
  split; [done|]. split; [apply NoDup_seq|].
  intros h Hin. apply in_seq in Hin. lia.
Qed.

(** X13.  The weights are not part of the archive: whatever [serialize] is
    given, the layer it leaves has the weights it had, so a load keeps the
    weights of the target, and two layers that differ in their weights only
    write the same items. *)
Theorem serialize_leaves_weights_out this ar s this' ar' s' :
  serialize this ar s = Done (this', ar', s') ->
  weights this' = weights this /\
  forall (w : Tensor) written,
    ar = OutputArchive written ->
    serialize (mkMultiplyMerge (model this) (run this) (ownsLayer this) (network this) w)
      ar s
    = Done (mkMultiplyMerge (model this) (run this) (ownsLayer this) (network this) w,
            ar', s').
Proof.
  intros Hser. split.
  - destruct ar as [written|pending].
    + rewrite serialize_save_onto in Hser. by injection Hser as <- _ _.
    + by apply serialize_load_inv in Hser as (ps & m & r & o & rest & _ & -> & _).
  - intros w written ->. rewrite serialize_save_onto in *.
    by injection Hser as _ <- <-.
Qed.

(** X14.  Saving never fails and changes neither the layer nor the heap; it
    appends to what the archive holds already.  Loading reads back exactly
    the items a save appended and leaves what follows them, so that layers
    saved one after the other load back in turn. *)
Theorem serialize_round_trip_in_context this s :
  exists items,
    (forall written,
       serialize this (OutputArchive written) s
       = Done (this, OutputArchive (written ++ items), s)) /\
    (forall target rest s0,
       exists target' s',
         serialize target (InputArchive (items ++ rest)) s0
         = Done (target', InputArchive rest, s') /\
         serialize target (InputArchive items) s0
         = Done (target', InputArchive [], s') /\
         model target' = model this /\ run target' = run this /\
         ownsLayer target' = ownsLayer this /\
         length (network target') = length (network this)).
Proof.
  set (ps := map branch_save (map (layers s) (network this))).
  assert (Hlen : length ps = length (network this)).
  { unfold ps. by rewrite !length_map. }
  exists (Size (length (network this))
          :: map Variant ps ++ [Flag (model this); Flag (run this); Flag (ownsLayer this)]).
  split; [intros written; apply serialize_save_onto|].
  intros target rest s0. eexists. eexists.
  rewrite <- Hlen. cbn [app]. rewrite <- app_assoc. cbn [app].
  split; [apply serialize_load_rest|].
  split; [apply (serialize_load_rest target ps _ _ _ [])|].
  cbn [model run ownsLayer network]. by rewrite length_seq.
Qed.

(** X15.  The destructor of a loaded layer that owns its collection destroys
    each branch the load created exactly once, and no branch that existed
    before the load. *)
Theorem loaded_layer_destroys_its_own_branches target pending s0 target' ar' s' :
  serialize target (InputArchive pending) s0 = Done (target', ar', s') ->
  ownsLayer target' = true ->
  freed (destructor target' s') = freed s0 ++ network target' /\
  (forall h, In h (network target') ->
     destroyed h (destructor target' s') = S (destroyed h s0)) /\
  (forall h, h < brk s0 -> destroyed h (destructor target' s') = destroyed h s0).
Proof.
  intros Hload Hown.
  apply serialize_load_inv in Hload as (ps & m & r & o & rest & -> & -> & -> & ->).
  rewrite destructor_owning by done. cbn [freed network].
  rewrite new_all_freed. split; [done|].
  assert (Hcount : forall h,
    destroyed h (mkHeap (layers (new_all (map branch_load ps) s0))
                   (freed s0 ++ seq (brk s0) (length ps))
                   (brk (new_all (map branch_load ps) s0)))
    = destroyed h s0 + entries h (seq (brk s0) (length ps))).
  { intros h. unfold destroyed, entries. cbn [freed].
    by rewrite list.filter_app, length_app. }
  split; intros h Hh; rewrite Hcount; unfold entries.
  - rewrite occurrences_NoDup; [lia|apply NoDup_seq|done].
  - rewrite occurrences_absent; [lia|]. rewrite in_seq. lia.
Qed.

Lemma round_trip_contents this target s s0 :
  (forall b : Branch, branch_load (branch_save b) = b) ->
  exists written target' s',
    serialize this (OutputArchive []) s = Done (this, OutputArchive written, s) /\
    serialize target (InputArchive written) s0 = Done (target', InputArchive [], s') /\
    run target' = run this /\
    NoDup (network target') /\
    map (layers s') (network target') = map (layers s) (network this).
Proof.
  intros Hload.
  set (ps := map branch_save (map (layers s) (network this))).
  assert (Hlen : length ps = length (network this)).
  { unfold ps. by rewrite !length_map. }
  exists (Size (length (network this))
          :: map Variant ps ++ [Flag (model this); Flag (run this); Flag (ownsLayer this)]).
  eexists. eexists. split; [apply (serialize_save_onto this [])|].
  split; [rewrite <- Hlen; apply (serialize_load_rest target ps _ _ _ [])|].
  cbn [run network]. split; [done|]. split; [apply NoDup_seq|].
  rewrite <- (length_map branch_load ps), new_all_contents.
  unfold ps. rewrite map_map. erewrite map_ext; [apply map_id|]. intros b. apply Hload.
Qed.

(** X17.  A save followed by a load keeps what Backward computes: when the
    branches' payloads restore them and the saved layer has distinct handles
    or [run] false, Backward leaves in [g], for every upstream gradient, the
    value it leaves for the saved layer. *)
Theorem serialize_round_trip_keeps_Backward this target s s0 :
  (forall b : Branch, branch_load (branch_save b) = b) ->
  run this = false \/ NoDup (network this) ->
  exists written target' s',
    serialize this (OutputArchive []) s = Done (this, OutputArchive written, s) /\
    serialize target (InputArchive written) s0 = Done (target', InputArchive [], s') /\
    forall input input' gy : Tensor,
      outcome_map snd (Backward target' input gy s')
      = outcome_map snd (Backward this input' gy s).
Proof.
  intros Hload Hnd.
  destruct (round_trip_contents this target s s0 Hload)
    as (written & target' & s' & Hsave & Hrestore & Hrun & Hfresh & Hsame).
  exists written, target', s'. split; [exact Hsave|]. split; [exact Hrestore|].
  intros input input' gy. destruct (run this) eqn:Hthis.
  - destruct Hnd as [?|Hnd]; [done|].
    rewrite !Backward_g_contents by done. by rewrite Hsame.
  - rewrite !Backward_unfold, Hrun, Hthis. reflexivity.
Qed.

End Loading.

(** * The properties at work on integer vectors

    The layer of the example merges the branches at the handles 0 and 1, which
    hold the outputs [1,2,3] and [4,5,6] and scale by 1 and by 2. *)

Import Mock.

Lemma Forward_folds_branch_outputs_witness :
  network (merge false true) = [0; 1] /\
  outcome_map snd (Forward (merge false true) [7; 7; 7]%Z heap0) = Done [4; 10; 18]%Z.
Proof.
  split; [reflexivity|].
  rewrite (Forward_folds_branch_outputs (merge false true) [7; 7; 7]%Z heap0 0 [1])
    by reflexivity.
  reflexivity.
Defined.


Lemma Backward_sums_branch_deltas_witness :
  run (merge true true) = true /\
  network (merge true true) = [0; 1] /\
  outcome_map snd (Backward (merge true true) [7; 7; 7]%Z [1; 1; 1]%Z heap0)
  = Done [3; 3; 3]%Z.
Proof.
  split; [reflexivity|]. split; [reflexivity|].
  destruct (Backward_sums_branch_deltas (merge true true) [7; 7; 7]%Z [1; 1; 1]%Z heap0
              0 [1] eq_refl eq_refl) as [_ Htwo].
  rewrite (Htwo 1 eq_refl). reflexivity.
Defined.

Lemma Backward_passes_gradient_through_witness :
  run (merge false true) = false /\
  Backward (merge false true) [7; 7; 7]%Z [1; 1; 1]%Z heap0 = Done (heap0, [1; 1; 1]%Z).
Proof.
  split; [reflexivity|].
  apply (Backward_passes_gradient_through (merge false true)). reflexivity.
Defined.

Lemma destructor_destroys_each_branch_once_witness :
  ownsLayer (merge true true) = true /\
  NoDup (network (merge true true)) /\
  destroyed 0 (destructor (merge true true) heap0) = 1 /\
  destroyed 1 (destructor (merge true true) heap0) = 1 /\
  destroyed 2 (destructor (merge true true) heap0) = 0 /\
  ownsLayer (merge true false) = false /\
  destructor (merge true false) heap0 = heap0.
Proof.
  assert (Hnd : NoDup (network (merge true true))) by compute_done.
  destruct (destructor_destroys_each_branch_once (merge true true) heap0)
    as [Howned _].
  destruct (Howned eq_refl) as (_ & _ & Honce & Hout).
  destruct (destructor_destroys_each_branch_once (merge true false) heap0)
    as [_ Hborrowed].
  split; [reflexivity|]. split; [exact Hnd|].
  split; [apply (Honce Hnd 0); cbn; lia|].
  split; [apply (Honce Hnd 1); cbn; lia|].
  split; [apply (Hout 2); cbn; lia|].
  split; [reflexivity|]. apply Hborrowed. reflexivity.
Defined.

Lemma copy_is_verbatim_and_self_assignment_is_noop_witness :
  2 <> 1 /\
  operator_assign 1 0 memory0 1 = merge true true /\
  operator_assign 1 0 memory0 0 = merge true true /\
  operator_assign 1 0 memory0 2 = memory0 2 /\
  operator_assign 0 0 memory0 = memory0 /\
  operator_assign_move 0 0 memory0 = memory0.
Proof.
  destruct (copy_is_verbatim_and_self_assignment_is_noop 1 0 memory0)
    as ((_ & Hthis & Hlayer) & _ & Hframe & _).
  destruct (copy_is_verbatim_and_self_assignment_is_noop 0 0 memory0)
    as (_ & _ & _ & Hself & Hmove).
  split; [lia|]. split; [exact Hthis|]. split; [exact Hlayer|].
  split; [apply (Hframe 2); lia|]. split; [exact Hself|exact Hmove].
Defined.


Lemma Forward_calls_per_entry_witness :
  network shared <> [] /\
  exists s' output,
    Forward shared [7; 7; 7]%Z heap0 = Done (s', output) /\
    layers s' 0 = branch_Forward [7; 7; 7]%Z (branch_Forward [7; 7; 7]%Z branchA) /\
    layers s' 1 = branch_Forward [7; 7; 7]%Z branchB /\
    layers s' 4 = blank.
Proof.
  assert (Hne : network shared <> []) by discriminate.
  split; [exact Hne|].
  destruct (Forward_calls_per_entry shared [7; 7; 7]%Z heap0 Hne)
    as (s' & output & Hforward & _ & _ & Hcalls & Hout).
  exists s', output. split; [exact Hforward|].
  split; [rewrite Hcalls; reflexivity|]. split; [rewrite Hcalls; reflexivity|].
  rewrite Hout; [reflexivity|]. cbn. lia.
Defined.

Lemma Backward_raises_iff_run_and_empty_witness :
  Backward (MultiplyMerge_new false true) [7; 7; 7]%Z [1; 1; 1]%Z heap0
    = Raise InvalidConfiguration /\
  exists r, Backward (MultiplyMerge_new false false) [7; 7; 7]%Z [1; 1; 1]%Z heap0 = Done r.
Proof.
  split.
  - apply (Backward_raises_iff_run_and_empty (MultiplyMerge_new false true)).
    split; reflexivity.
  - apply (Backward_raises_iff_run_and_empty (MultiplyMerge_new false false)).
    left. reflexivity.
Defined.

Lemma Backward_calls_per_entry_witness :
  run shared = true /\
  network shared <> [] /\
  exists s' g,
    Backward shared [7; 7; 7]%Z [1; 1; 1]%Z heap0 = Done (s', g) /\
    Delta (layers s' 0) = [1; 1; 1]%Z /\
    Delta (layers s' 1) = [2; 2; 2]%Z /\
    layers s' 4 = blank.
Proof.
  assert (Hne : network shared <> []) by discriminate.
  split; [reflexivity|]. split; [exact Hne|].
  destruct (Backward_calls_per_entry shared [7; 7; 7]%Z [1; 1; 1]%Z heap0 eq_refl Hne)
    as (s' & g & Hbackward & _ & _ & Hcalls & Hout).
  exists s', g. split; [exact Hbackward|].
  split; [rewrite Hcalls; reflexivity|]. split; [rewrite Hcalls; reflexivity|].
  rewrite Hout; [reflexivity|]. cbn. lia.
Defined.

Lemma Backward_g_of_contents_witness :
  run (merge true true) = true /\
  NoDup (network (merge true true)) /\
  outcome_map snd (Backward (merge true true) [7; 7; 7]%Z [1; 1; 1]%Z heap0)
  = Done [3; 3; 3]%Z.
Proof.
  assert (Hnd : NoDup (network (merge true true))) by compute_done.
  split; [reflexivity|]. split; [exact Hnd|].
  rewrite (Backward_g_of_contents (merge true true) [7; 7; 7]%Z [1; 1; 1]%Z heap0 eq_refl Hnd).
  reflexivity.
Defined.

Lemma Forward_output_depends_on_branches_witness :
  run (merge true false) = run merge1 /\
  forwards_once (merge true false) /\
  forwards_once merge1 /\
  map (layers heap0) (network (merge true false)) = map (layers heap1) (network merge1) /\
  outcome_map snd (Forward (merge true false) [7; 7; 7]%Z heap0)
  = outcome_map snd (Forward merge1 [7; 7; 7]%Z heap1).
Proof.
  assert (Honce0 : forwards_once (merge true false)) by (right; left; compute_done).
  assert (Honce1 : forwards_once merge1) by (right; left; compute_done).
  split; [reflexivity|]. split; [exact Honce0|]. split; [exact Honce1|].
  split; [reflexivity|].
  apply (Forward_output_depends_on_branches (merge true false) merge1 [7; 7; 7]%Z
           heap0 heap1 eq_refl Honce0 Honce1 eq_refl).
Defined.

Lemma copy_then_destroy_both_deletes_twice_witness :
  ownsLayer (memory0 0) = true /\
  freed (destructor (MultiplyMerge_copy 1 0 memory0 1)
           (destructor (MultiplyMerge_copy 1 0 memory0 0) heap0))
  = [0; 1; 0; 1] /\
  destroyed 0 (destructor (operator_assign 1 0 memory0 1)
                 (destructor (operator_assign 1 0 memory0 0) heap0))
  = 2.
Proof.
  split; [reflexivity|].
  destruct (copy_then_destroy_both_deletes_twice 1 0 memory0 heap0 eq_refl)
    as [[Hcopy _] [_ Hassign]].
  split; [exact Hcopy|exact (Hassign 0)].
Defined.

Lemma move_construction_transfers_ownership_witness :
  1 <> 0 /\
  MultiplyMerge_move 1 0 memory0 1 = merge true true /\
  network (MultiplyMerge_move 1 0 memory0 0) = [] /\
  freed (destructor (MultiplyMerge_move 1 0 memory0 1)
           (destructor (MultiplyMerge_move 1 0 memory0 0) heap0))
  = [0; 1].
Proof.
  assert (Hne : 1 <> 0) by lia.
  destruct (move_construction_transfers_ownership 1 0 memory0 heap0 Hne)
    as (Hthis & Hlayer & _ & _ & Hboth).
  split; [exact Hne|]. split; [exact Hthis|].
  split; [rewrite Hlayer; reflexivity|]. rewrite Hboth. reflexivity.
Defined.

Lemma move_assignment_transfers_ownership_witness :
  1 <> 0 /\
  operator_assign_move 1 0 memory0 1 = merge true true /\
  network (operator_assign_move 1 0 memory0 0) = [] /\
  freed (destructor (operator_assign_move 1 0 memory0 1)
           (destructor (operator_assign_move 1 0 memory0 0) heap0))
  = [0; 1].
Proof.
  assert (Hne : 1 <> 0) by lia.
  destruct (move_assignment_transfers_ownership 1 0 memory0 heap0 Hne)
    as (Hthis & Hlayer & _ & _ & Hboth).
  split; [exact Hne|]. split; [exact Hthis|].
  split; [rewrite Hlayer; reflexivity|]. rewrite Hboth. reflexivity.
Defined.

Lemma load_reads_count_branches_flags_witness :
  serialize (merge false false) (InputArchive archive0) heap0
    = Done (mkMultiplyMerge false true true [2; 3] [9%Z], InputArchive [], heap0_loaded) /\
  forall e,
    serialize (merge false false) (InputArchive [Size 1; Flag true]) heap0 = Raise e ->
    e = MalformedArchive.
Proof.
  split.
  - apply (load_reads_count_branches_flags (merge false false) archive0 heap0).
    exists [branch_save branchA; branch_save branchB], false, true, true, [].
    repeat split.
  - apply (load_reads_count_branches_flags (merge false false) [Size 1; Flag true] heap0).
Defined.

Lemma load_drops_held_branches_undestroyed_witness :
  serialize (merge false true) (InputArchive archive0) heap0
    = Done (mkMultiplyMerge false true true [2; 3] [9%Z], InputArchive [], heap0_loaded) /\
  freed heap0_loaded = [] /\
  layers heap0_loaded 0 = branchA /\
  layers heap0_loaded 1 = branchB /\
  brk heap0_loaded = 4.
Proof.
  assert (Hload : serialize (merge false true) (InputArchive archive0) heap0
                  = Done (mkMultiplyMerge false true true [2; 3] [9%Z], InputArchive [],
                          heap0_loaded)) by reflexivity.
  destruct (load_drops_held_branches_undestroyed _ _ _ _ _ _ Hload)
    as (Hfreed & Hkept & Hbrk & _ & _).
  split; [exact Hload|]. split; [exact Hfreed|].
  split; [apply (Hkept 0); cbn; lia|]. split; [apply (Hkept 1); cbn; lia|].
  exact Hbrk.
Defined.

Lemma serialize_leaves_weights_out_witness :
  serialize (merge false false) (InputArchive archive0) heap0
    = Done (mkMultiplyMerge false true true [2; 3] [9%Z], InputArchive [], heap0_loaded) /\
  weights (mkMultiplyMerge false true true [2; 3] [9%Z]) = weights (merge false false) /\
  serialize (merge true true) (OutputArchive []) heap0
    = Done (merge true true, OutputArchive archive0, heap0) /\
  serialize (mkMultiplyMerge false true true [0; 1] [5; 5]%Z) (OutputArchive []) heap0
    = Done (mkMultiplyMerge false true true [0; 1] [5; 5]%Z, OutputArchive archive0, heap0).
Proof.
  assert (Hload : serialize (merge false false) (InputArchive archive0) heap0
                  = Done (mkMultiplyMerge false true true [2; 3] [9%Z], InputArchive [],
                          heap0_loaded)) by reflexivity.
  assert (Hsave : serialize (merge true true) (OutputArchive []) heap0
                  = Done (merge true true, OutputArchive archive0, heap0)) by reflexivity.
  split; [exact Hload|].
  split; [apply (proj1 (serialize_leaves_weights_out _ _ _ _ _ _ Hload))|].
  split; [exact Hsave|].
  apply (proj2 (serialize_leaves_weights_out _ _ _ _ _ _ Hsave) [5; 5]%Z [] eq_refl).
Defined.

Lemma loaded_layer_destroys_its_own_branches_witness :
  serialize (merge false true) (InputArchive archive0) heap0
    = Done (mkMultiplyMerge false true true [2; 3] [9%Z], InputArchive [], heap0_loaded) /\
  ownsLayer (mkMultiplyMerge false true true [2; 3] [9%Z]) = true /\
  freed (destructor (mkMultiplyMerge false true true [2; 3] [9%Z]) heap0_loaded) = [2; 3] /\
  destroyed 2 (destructor (mkMultiplyMerge false true true [2; 3] [9%Z]) heap0_loaded) = 1 /\
  destroyed 0 (destructor (mkMultiplyMerge false true true [2; 3] [9%Z]) heap0_loaded) = 0.
Proof.
  assert (Hload : serialize (merge false true) (InputArchive archive0) heap0
                  = Done (mkMultiplyMerge false true true [2; 3] [9%Z], InputArchive [],
                          heap0_loaded)) by reflexivity.
  destruct (loaded_layer_destroys_its_own_branches _ _ _ _ _ _ Hload eq_refl)
    as (Hfreed & Hown & Hold).
  split; [exact Hload|]. split; [reflexivity|]. split; [exact Hfreed|].
  split; [apply (Hown 2); cbn; lia|]. apply (Hold 0). cbn. lia.
Defined.

Lemma Forward_then_Backward_witness :
  run (merge true true) = true /\
  NoDup (network (merge true true)) /\
  network (merge true true) <> [] /\
  exists s1 output,
    Forward (merge true true) [7; 7; 7]%Z heap0 = Done (s1, output) /\
    outcome_map snd (Backward (merge true true) [] [1; 1; 1]%Z s1) = Done [3; 3; 3]%Z.
Proof.
  assert (Hnd : NoDup (network (merge true true))) by compute_done.
  assert (Hne : network (merge true true) <> []) by discriminate.
  split; [reflexivity|]. split; [exact Hnd|]. split; [exact Hne|].
  destruct (Forward_then_Backward (merge true true) [7; 7; 7]%Z [] [1; 1; 1]%Z heap0
              eq_refl Hnd Hne) as (s1 & output & Hforward & Hbackward).
  exists s1, output. split; [exact Hforward|]. rewrite Hbackward. reflexivity.
Defined.

Lemma serialize_round_trip_keeps_Backward_witness :
  (forall b : Scale, branch_load (branch_save b) = b) /\
  (run (merge true true) = false \/ NoDup (network (merge true true))) /\
  exists written target' s',
    serialize (merge true true) (OutputArchive []) heap0
      = Done (merge true true, OutputArchive written, heap0) /\
    serialize (MultiplyMerge_new true false) (InputArchive written) heap0
      = Done (target', InputArchive [], s') /\
    outcome_map snd (Backward target' [7; 7; 7]%Z [1; 1; 1]%Z s') = Done [3; 3; 3]%Z.
Proof.
  assert (Hload : forall b : Scale, branch_load (branch_save b) = b)
    by (intros []; reflexivity).
  assert (Hnd : run (merge true true) = false \/ NoDup (network (merge true true)))
    by (right; compute_done).
  split; [exact Hload|]. split; [exact Hnd|].
  destruct (serialize_round_trip_keeps_Backward (merge true true)
              (MultiplyMerge_new true false) heap0 heap0 Hload Hnd)
    as (written & target' & s' & Hsave & Hrestore & Hsame).
  exists written, target', s'. split; [exact Hsave|]. split; [exact Hrestore|].
  etransitivity; [apply (Hsame [7; 7; 7]%Z [7; 7; 7]%Z [1; 1; 1]%Z)|reflexivity].
Defined.

(** C5 needs the handles to be distinct: the destructor of the owning layer on
    the handles 0, 0 and 1 applies [delete] to the branch at 0 twice, not
    once. *)
Lemma destructor_shared_branch_counterexample :
  ownsLayer shared_owner = true /\
  In 0 (network shared_owner) /\
  freed (destructor shared_owner heap0) = [0; 0; 1] /\
  destroyed 0 heap0 = 0 /\
  destroyed 0 (destructor shared_owner heap0) = 2 /\
  destroyed 0 (destructor shared_owner heap0) <> S (destroyed 0 heap0).
Proof.
  split; [reflexivity|]. split; [by left|]. split; [reflexivity|].
  split; [reflexivity|]. split; [reflexivity|]. discriminate.
Qed.

